(** * Used-bike dashboard (app.py): the filter and aggregation pipeline

    A shallow embedding of the part of [app.py] that computes: the data
    frame read from the file, the sidebar domains ([brands], [bike_types],
    the slider bounds), the boolean-mask filter that builds [filtered_df],
    the values of the three KPI metrics, the count as displayed and the
    listings preview.  The charts, drawn by plotly from [filtered_df], are
    not part of it.

    Conventions of the embedding:
    - a data frame is a list of rows, each row carrying its index label
      (the [RangeIndex] that [pd.read_csv] assigns);
    - a column ([df['Brand']]) is the list of its cells, a missing cell
      (pandas' NaN) being [None];
    - strings are byte strings; on UTF-8 the byte-wise lexicographic order
      of [String.compare] is the code-point order Python compares [str] by;
    - [Year] cells are integers, [Price] cells are numeric: exact rationals
      stand for pandas' float64 values.  Comparisons, [min], [max] and
      [int] are exact on them; [mean] is the exact quotient, which pandas
      rounds to float64, so of a mean only what no rounding can change is
      stated: whether it is NaN, and its value where the float64
      computation is exact;
    - an operation that raises in Python returns [Raise e]. *)

From Stdlib Require Import List Bool Arith ZArith QArith Qminmax Lia.
From Stdlib Require Import Strings.String Strings.Ascii.
From Stdlib Require Import Sorting.Sorted Sorting.Permutation Sorting.Mergesort Orders.
From Stdlib Require Import Qround.
From Stdlib Require Decimal DecimalNat DecimalString.
Import ListNotations.

Local Open Scope Z_scope.

(** ** Exceptions *)

Inductive exn : Type :=
| ValueError    (* int(float('nan')) *)
| IndexingError (* df[mask] with a mask of the wrong length *).

Inductive result (A : Type) : Type :=
| Ok (a : A)
| Raise (e : exn).

Arguments Ok {A} a.
Arguments Raise {A} e.

Definition bind {A B : Type} (m : result A) (k : A -> result B) : result B :=
  match m with
  | Ok a => k a
  | Raise e => Raise e
  end.

Notation "x <- m ;; k" := (bind m (fun x => k))
  (at level 61, m at next level, right associativity).

(** ** Data model *)

(** One row of [cleaned_bike_data.csv], restricted to the four columns the
    script reads. *)
Record Listing : Type := mkListing {
  Brand     : option string;
  Bike_Type : option string;
  Year      : option Z;
  Price     : option Q
}.

(** A data frame: rows with their index labels, in row order. *)
Definition DataFrame : Type := list (nat * Listing).

(** A column of a data frame. *)
Definition Series (A : Type) : Type := list (option A).

(** [pd.read_csv]: rows are labelled 0, 1, 2, ... *)
Definition read_csv (rows : list Listing) : DataFrame :=
  combine (seq 0 (List.length rows)) rows.

(** [df[c]] for a column accessor [c]. *)
Definition col {A : Type} (c : Listing -> option A) (df : DataFrame) : Series A :=
  map (fun ir => c (snd ir)) df.

(** What the sidebar widgets return. *)
Record FilterSelection : Type := mkSelection {
  selected_brand : list string;
  selected_type  : list string;
  year_range     : Z * Z;
  price_range    : Q * Q
}.

(** ** pandas primitives *)

(** [s.dropna()] *)
Fixpoint dropna {A : Type} (s : Series A) : list A :=
  match s with
  | [] => []
  | Some v :: s' => v :: dropna s'
  | None :: s' => dropna s'
  end.

(** [s.unique()]: distinct values in order of first appearance. *)
Fixpoint unique_from (seen : list string) (l : list string) : list string :=
  match l with
  | [] => []
  | x :: l' =>
      if existsb (String.eqb x) seen then unique_from seen l'
      else x :: unique_from (x :: seen) l'
  end.

Definition unique (l : list string) : list string := unique_from [] l.

(** [s.isin(values)]: a missing cell is never a member of a list of strings. *)
Definition isin (s : Series string) (values : list string) : list bool :=
  map (fun cell =>
         match cell with
         | Some v => existsb (String.eqb v) values
         | None => false
         end) s.

(** [s >= k] and [s <= k]: a comparison with a missing cell is [False]. *)
Definition ge_Z (s : Series Z) (k : Z) : list bool :=
  map (fun cell => match cell with Some v => k <=? v | None => false end) s.

Definition le_Z (s : Series Z) (k : Z) : list bool :=
  map (fun cell => match cell with Some v => v <=? k | None => false end) s.

Definition ge_Q (s : Series Q) (k : Q) : list bool :=
  map (fun cell => match cell with Some v => Qle_bool k v | None => false end) s.

Definition le_Q (s : Series Q) (k : Q) : list bool :=
  map (fun cell => match cell with Some v => Qle_bool v k | None => false end) s.

(** [m1 & m2] on boolean series. *)
Fixpoint mask_and (m1 m2 : list bool) : list bool :=
  match m1, m2 with
  | b1 :: m1', b2 :: m2' => (b1 && b2)%bool :: mask_and m1' m2'
  | _, _ => []
  end.

Infix "&" := mask_and (at level 40, left associativity).

(** [df[mask]]: the rows whose mask cell is [True], labels kept; a mask of
    the wrong length raises. *)
Fixpoint getitem_mask (df : DataFrame) (mask : list bool) : result DataFrame :=
  match df, mask with
  | [], [] => Ok []
  | r :: df', b :: mask' =>
      rest <- getitem_mask df' mask' ;;
      Ok (if b then r :: rest else rest)
  | _, _ => Raise IndexingError
  end.

(** [s.min()] and [s.max()] skip missing cells; the result is missing when
    no cell is left. *)
Fixpoint reduce {A : Type} (op : A -> A -> A) (l : list A) : option A :=
  match l with
  | [] => None
  | x :: l' =>
      match reduce op l' with
      | None => Some x
      | Some y => Some (op x y)
      end
  end.

Definition min_Z (s : Series Z) : option Z := reduce Z.min (dropna s).
Definition max_Z (s : Series Z) : option Z := reduce Z.max (dropna s).
Definition min_Q (s : Series Q) : option Q := reduce Qmin (dropna s).
Definition max_Q (s : Series Q) : option Q := reduce Qmax (dropna s).

(** [int(x)]: truncation toward zero; [int(nan)] raises [ValueError]. *)
Definition trunc (q : Q) : Z := Z.quot (Qnum q) (Zpos (Qden q)).

Definition int_Q (x : option Q) : result Z :=
  match x with
  | Some q => Ok (trunc q)
  | None => Raise ValueError
  end.

Definition int_Z (x : option Z) : result Z :=
  match x with
  | Some z => Ok z
  | None => Raise ValueError
  end.

(** [s.mean()]: the sum of the non-missing cells over their number; [None]
    is the NaN that pandas returns when no cell is left. *)
Definition Qsum (l : list Q) : Q := fold_right Qplus 0%Q l.

Definition mean (s : Series Q) : option Q :=
  match dropna s with
  | [] => None
  | xs => Some (Qsum xs / inject_Z (Z.of_nat (List.length xs)))%Q
  end.

Definition as_float (s : Series Z) : Series Q := map (option_map inject_Z) s.

(** ** Python's [sorted] on strings *)

Module StringOrder <: TotalLeBool.
Definition t := string.
Definition leb := String.leb.
Theorem leb_total : forall a1 a2, is_true (leb a1 a2) \/ is_true (leb a2 a1).
Proof. intros a1 a2. apply String.leb_total. Qed.
End StringOrder.

Module StringSort := Sort StringOrder.

Definition sorted (l : list string) : list string := StringSort.sort l.

(** ** The script *)

(** Line 57 and line 60. *)
Definition brands (df : DataFrame) : list string :=
  sorted (unique (dropna (col Brand df))).

Definition bike_types (df : DataFrame) : list string :=
  sorted (unique (dropna (col Bike_Type df))).

(** Line 63 and line 66. *)
Definition year_bounds (df : DataFrame) : result (Z * Z) :=
  min_year <- int_Z (min_Z (col Year df)) ;;
  max_year <- int_Z (max_Z (col Year df)) ;;
  Ok (min_year, max_year).

Definition price_bounds (df : DataFrame) : result (Z * Z) :=
  min_price <- int_Q (min_Q (col Price df)) ;;
  max_price <- int_Q (max_Q (col Price df)) ;;
  Ok (min_price, max_price).

(** Lines 70-75. *)
Definition filter_mask (df : DataFrame) (sel : FilterSelection) : list bool :=
  isin (col Brand df) (selected_brand sel) &
  isin (col Bike_Type df) (selected_type sel) &
  ge_Z (col Year df) (fst (year_range sel)) & le_Z (col Year df) (snd (year_range sel)) &
  ge_Q (col Price df) (fst (price_range sel)) & le_Q (col Price df) (snd (price_range sel)).

Definition filtered_df (df : DataFrame) (sel : FilterSelection) : result DataFrame :=
  getitem_mask df (filter_mask df sel).

(** Lines 88-92: the values handed to the three [st.metric] calls. *)
Record KPI : Type := mkKPI {
  total_listings : nat;
  average_price  : option Q;
  average_year   : option Q
}.

Definition metrics (fdf : DataFrame) : KPI :=
  {| total_listings := List.length fdf;
     average_price  := mean (col Price fdf);
     average_year   := mean (as_float (col Year fdf)) |}.

(** ** The specification's row predicate *)

(** The four conditions of the specification, on one row. *)
Definition predicate (row : Listing) (sel : FilterSelection) : Prop :=
  (exists b, Brand row = Some b /\ In b (selected_brand sel)) /\
  (exists t, Bike_Type row = Some t /\ In t (selected_type sel)) /\
  (exists y, Year row = Some y /\
             fst (year_range sel) <= y /\ y <= snd (year_range sel)) /\
  (exists p, Price row = Some p /\
             (fst (price_range sel) <= p)%Q /\ (p <= snd (price_range sel))%Q).

(** The rows of a table that satisfy the predicate, as a sub-table. *)
Inductive satisfying (sel : FilterSelection) : DataFrame -> DataFrame -> Prop :=
| sat_nil : satisfying sel [] []
| sat_keep : forall ir df out,
    predicate (snd ir) sel -> satisfying sel df out ->
    satisfying sel (ir :: df) (ir :: out)
| sat_drop : forall ir df out,
    ~ predicate (snd ir) sel -> satisfying sel df out ->
    satisfying sel (ir :: df) out.

(** [Subsequence l1 l2]: [l1] is [l2] with some elements removed. *)
Inductive Subsequence {A : Type} : list A -> list A -> Prop :=
| sub_nil : Subsequence [] []
| sub_take : forall x l1 l2, Subsequence l1 l2 -> Subsequence (x :: l1) (x :: l2)
| sub_skip : forall x l1 l2, Subsequence l1 l2 -> Subsequence l1 (x :: l2).

(** Widening exactly one dimension of a selection. *)
Inductive widens : FilterSelection -> FilterSelection -> Prop :=
| widen_brands : forall bs bs' ts yr pr,
    incl bs bs' ->
    widens (mkSelection bs ts yr pr) (mkSelection bs' ts yr pr)
| widen_types : forall bs ts ts' yr pr,
    incl ts ts' ->
    widens (mkSelection bs ts yr pr) (mkSelection bs ts' yr pr)
| widen_years : forall bs ts lo hi lo' hi' pr,
    lo' <= lo -> hi <= hi' ->
    widens (mkSelection bs ts (lo, hi) pr) (mkSelection bs ts (lo', hi') pr)
| widen_prices : forall bs ts yr lo hi lo' hi',
    (lo' <= lo)%Q -> (hi <= hi')%Q ->
    widens (mkSelection bs ts yr (lo, hi)) (mkSelection bs ts yr (lo', hi')).

(** True extrema of a list of values. *)
Definition is_min_Z (m : Z) (l : list Z) : Prop :=
  In m l /\ forall x, In x l -> m <= x.
Definition is_max_Z (m : Z) (l : list Z) : Prop :=
  In m l /\ forall x, In x l -> x <= m.
Definition is_min_Q (m : Q) (l : list Q) : Prop :=
  (exists x, In x l /\ (x == m)%Q) /\ forall x, In x l -> (m <= x)%Q.
Definition is_max_Q (m : Q) (l : list Q) : Prop :=
  (exists x, In x l /\ (x == m)%Q) /\ forall x, In x l -> (x <= m)%Q.

(** Strictly ascending in the lexicographic order. *)
Definition str_lt (a b : string) : Prop := String.compare a b = Lt.

(** ** The filter, row by row *)

(** The mask cell that lines 70-75 compute for one row. *)
Definition cell_isin (cell : option string) (values : list string) : bool :=
  match cell with
  | Some v => existsb (String.eqb v) values
  | None => false
  end.

Definition cell_between_Z (cell : option Z) (lo hi : Z) : bool :=
  match cell with
  | Some v => (lo <=? v) && (v <=? hi)
  | None => false
  end.

Definition cell_between_Q (cell : option Q) (lo hi : Q) : bool :=
  match cell with
  | Some v => Qle_bool lo v && Qle_bool v hi
  | None => false
  end.

Definition row_mask (sel : FilterSelection) (row : Listing) : bool :=
  cell_isin (Brand row) (selected_brand sel)
  && cell_isin (Bike_Type row) (selected_type sel)
  && cell_between_Z (Year row) (fst (year_range sel)) (snd (year_range sel))
  && cell_between_Q (Price row) (fst (price_range sel)) (snd (price_range sel)).

(** The table of the specification's scenario; the bike types of its rows
    are left open. *)
Definition scenario_rows (t1 t2 t3 : string) : list Listing :=
  [ mkListing (Some "Honda"%string)  (Some t1) (Some 2012) (Some (inject_Z 150000));
    mkListing (Some "Honda"%string)  (Some t2) (Some 2015) (Some (inject_Z 300000));
    mkListing (Some "Yamaha"%string) (Some t3) (Some 2018) (Some (inject_Z 500000)) ].

(** A table with one listing priced 150000.50. *)
Definition half_rupee_table : DataFrame :=
  read_csv [ mkListing (Some "Honda"%string) (Some "Scooters"%string)
                       (Some 2015) (Some (300001 # 2)) ].

(** A row that has both its brand and its bike type. *)
Definition has_categories (row : Listing) : bool :=
  match Brand row, Bike_Type row with
  | Some _, Some _ => true
  | _, _ => false
  end.

(** Sample data for the instances below. *)
Definition sample_csv : list Listing :=
  scenario_rows "Scooters" "Motorbikes" "Scooters".

Definition sample_table : DataFrame := read_csv sample_csv.

Definition sample_selection : FilterSelection :=
  mkSelection ["Honda"%string] ["Motorbikes"; "Scooters"]%string
              (2010, 2023) (0, inject_Z 1000000)%Q.

Definition wider_selection : FilterSelection :=
  mkSelection ["Honda"; "Yamaha"]%string ["Motorbikes"; "Scooters"]%string
              (2010, 2023) (0, inject_Z 1000000)%Q.

Definition no_brand_selection : FilterSelection :=
  mkSelection [] ["Scooters"%string] (2010, 2023) (0, inject_Z 1000000)%Q.

Definition inverted_selection : FilterSelection :=
  mkSelection ["Honda"%string] ["Scooters"%string]
              (2023, 2010) (0, inject_Z 1000000)%Q.

(** The sample file with its first two rows exchanged. *)
Definition swapped_csv : list Listing :=
  match sample_csv with
  | r1 :: r2 :: rest => r2 :: r1 :: rest
  | rows => rows
  end.

(** ** The listings preview and the count display *)

(** Line 152: [filtered_df.head(n)], the first [n] rows. *)
Definition head (n : nat) (df : DataFrame) : DataFrame := firstn n df.

(** [str(n)] and [int(s)] on non-negative integers. *)
Definition str_of_nat (n : nat) : string :=
  DecimalString.NilEmpty.string_of_uint (Nat.to_uint n).

Definition int_of_str (s : string) : option nat :=
  option_map Nat.of_uint (DecimalString.NilEmpty.uint_of_string s).

(** The [,] option of the format mini-language: a comma after every third
    digit, counted from the right.  [group3] works on the reversed digits. *)
Fixpoint group3 (l : list ascii) : list ascii :=
  match l with
  | a :: b :: c :: rest =>
      match rest with
      | [] => [a; b; c]
      | _ :: _ => a :: b :: c :: ","%char :: group3 rest
      end
  | _ => l
  end.

(** Line 88: [f"{n:,}"]. *)
Definition format_thousands (n : nat) : string :=
  string_of_list_ascii (rev (group3 (rev (list_ascii_of_string (str_of_nat n))))).

(** [s.replace(",", "")] *)
Definition remove_commas (s : string) : string :=
  string_of_list_ascii
    (List.filter (fun c => negb (Ascii.eqb c ","%char)) (list_ascii_of_string s)).

(** * Properties *)

(** ** The model on small inputs *)

Example unique_first_appearance :
  unique ["b"; "a"; "b"; "c"; "a"]%string = ["b"; "a"; "c"]%string.
Proof. reflexivity. Qed.

Example sorted_code_points :
  sorted ["b"; "a"; "B"; "c"; "ab"]%string = ["B"; "a"; "ab"; "b"; "c"]%string.
Proof. reflexivity. Qed.

Example sample_brands : brands sample_table = ["Honda"; "Yamaha"]%string.
Proof. reflexivity. Qed.

Example sample_bounds :
  year_bounds sample_table = Ok (2012, 2018) /\
  price_bounds sample_table = Ok (150000, 500000).
Proof. split; reflexivity. Qed.

Example empty_table_bounds_raise : year_bounds [] = Raise ValueError.
Proof. reflexivity. Qed.

Example short_mask_raises : getitem_mask sample_table [true] = Raise IndexingError.
Proof. reflexivity. Qed.

Example trunc_toward_zero : trunc (-7 # 2) = -3 /\ trunc (7 # 2) = 3.
Proof. split; reflexivity. Qed.

(** ** Boolean masks, row by row *)

Section Masks.

Lemma mask_and_map {A : Type} (f g : A -> bool) (l : list A) :
  map f l & map g l = map (fun x => f x && g x) l.
Proof.
  induction l as [|x l IH]; simpl; [reflexivity|].
  now rewrite IH.
Qed.

Lemma filter_mask_rows (df : DataFrame) (sel : FilterSelection) :
  filter_mask df sel = map (fun ir => row_mask sel (snd ir)) df.
Proof.
  unfold filter_mask, isin, ge_Z, le_Z, ge_Q, le_Q, col.
  rewrite !map_map, !mask_and_map.
  apply map_ext. intros [i row]. unfold row_mask; simpl.
  destruct (Brand row), (Bike_Type row), (Year row), (Price row); simpl;
    rewrite ?andb_false_r, ?andb_assoc; reflexivity.
Qed.

Lemma getitem_mask_map (f : nat * Listing -> bool) (df : DataFrame) :
  getitem_mask df (map f df) = Ok (List.filter f df).
Proof.
  induction df as [|r df IH]; simpl; [reflexivity|].
  rewrite IH. simpl. reflexivity.
Qed.

(** The filter never raises, and keeps the rows whose mask cell is true. *)
Lemma filtered_df_filter (df : DataFrame) (sel : FilterSelection) :
  filtered_df df sel = Ok (List.filter (fun ir => row_mask sel (snd ir)) df).
Proof.
  unfold filtered_df. rewrite filter_mask_rows. apply getitem_mask_map.
Qed.

Lemma cell_isin_iff (cell : option string) (values : list string) :
  cell_isin cell values = true <-> exists v, cell = Some v /\ In v values.
Proof.
  destruct cell as [v|]; simpl.
  - rewrite existsb_exists. split.
    + intros [x [Hin Heq]]. apply String.eqb_eq in Heq. subst x.
      exists v. auto.
    + intros [x [Heq Hin]]. injection Heq as <-.
      exists v. split; [assumption | apply String.eqb_refl].
  - split; [discriminate | intros [v [H _]]; discriminate].
Qed.

Lemma cell_between_Z_iff (cell : option Z) (lo hi : Z) :
  cell_between_Z cell lo hi = true <->
  exists v, cell = Some v /\ lo <= v /\ v <= hi.
Proof.
  destruct cell as [v|]; simpl.
  - rewrite andb_true_iff, !Z.leb_le. split.
    + intros [H1 H2]. exists v. auto.
    + intros [x [Heq H]]. injection Heq as <-. exact H.
  - split; [discriminate | intros [v [H _]]; discriminate].
Qed.

Lemma cell_between_Q_iff (cell : option Q) (lo hi : Q) :
  cell_between_Q cell lo hi = true <->
  exists v, cell = Some v /\ (lo <= v)%Q /\ (v <= hi)%Q.
Proof.
  destruct cell as [v|]; simpl.
  - rewrite andb_true_iff, !Qle_bool_iff. split.
    + intros [H1 H2]. exists v. auto.
    + intros [x [Heq H]]. injection Heq as <-. exact H.
  - split; [discriminate | intros [v [H _]]; discriminate].
Qed.

(** The mask cell of a row decides the specification's predicate. *)
Lemma row_mask_iff (sel : FilterSelection) (row : Listing) :
  row_mask sel row = true <-> predicate row sel.
Proof.
  unfold row_mask, predicate.
  rewrite !andb_true_iff, !cell_isin_iff, cell_between_Z_iff, cell_between_Q_iff.
  tauto.
Qed.

Lemma row_mask_false (sel : FilterSelection) (row : Listing) :
  row_mask sel row = false <-> ~ predicate row sel.
Proof.
  rewrite <- row_mask_iff. destruct (row_mask sel row); split; congruence.
Qed.

Lemma satisfying_filter (sel : FilterSelection) (df : DataFrame) :
  satisfying sel df (List.filter (fun ir => row_mask sel (snd ir)) df).
Proof.
  induction df as [|ir df IH]; simpl.
  - constructor.
  - destruct (row_mask sel (snd ir)) eqn:E.
    + apply sat_keep; [now apply row_mask_iff | exact IH].
    + apply sat_drop; [now apply row_mask_false | exact IH].
Qed.

(** The sub-table of satisfying rows is unique. *)
Lemma satisfying_functional (sel : FilterSelection) (df out1 out2 : DataFrame) :
  satisfying sel df out1 -> satisfying sel df out2 -> out1 = out2.
Proof.
  intros H1. revert out2.
  induction H1 as [|ir df out Hp _ IH|ir df out Hn _ IH]; intros out2 H2;
    inversion H2; subst; try contradiction; auto.
  f_equal. auto.
Qed.

End Masks.

(** ** List facts used below *)

Lemma filter_Subsequence {A : Type} (f : A -> bool) (l : list A) :
  Subsequence (List.filter f l) l.
Proof.
  induction l as [|x l IH]; simpl.
  - constructor.
  - destruct (f x); now constructor.
Qed.

Lemma filter_length_mono {A : Type} (f g : A -> bool) (l : list A) :
  (forall x, In x l -> f x = true -> g x = true) ->
  (List.length (List.filter f l) <= List.length (List.filter g l))%nat.
Proof.
  induction l as [|x l IH]; intros H; simpl; [lia|].
  assert (IH' : (List.length (List.filter f l) <= List.length (List.filter g l))%nat).
  { apply IH. intros y Hy. apply H. now right. }
  destruct (f x) eqn:Ef.
  - rewrite (H x (or_introl eq_refl) Ef). simpl. lia.
  - destruct (g x); simpl; lia.
Qed.

Lemma filter_none {A : Type} (f : A -> bool) (l : list A) :
  (forall x, In x l -> f x = false) -> List.filter f l = [].
Proof.
  induction l as [|x l IH]; intros H; simpl; [reflexivity|].
  rewrite (H x (or_introl eq_refl)). apply IH.
  intros y Hy. apply H. now right.
Qed.

Lemma StronglySorted_filter {A : Type} (R : A -> A -> Prop) (f : A -> bool)
  (l : list A) :
  StronglySorted R l -> StronglySorted R (List.filter f l).
Proof.
  induction 1 as [|x l Hs IH Hall]; simpl; [constructor|].
  destruct (f x); [|exact IH].
  constructor; [exact IH|].
  rewrite Forall_forall in *. intros y Hy.
  apply filter_In in Hy. apply Hall. tauto.
Qed.

Lemma Subsequence_labels (l1 l2 : DataFrame) :
  Subsequence l1 l2 -> Subsequence (map fst l1) (map fst l2).
Proof.
  induction 1; simpl; now constructor.
Qed.

Lemma Subsequence_In {A : Type} (l1 l2 : list A) (x : A) :
  Subsequence l1 l2 -> In x l1 -> In x l2.
Proof.
  induction 1 as [|y l1 l2 _ IH|y l1 l2 _ IH]; simpl; intros Hin; tauto.
Qed.

Lemma Subsequence_StronglySorted {A : Type} (R : A -> A -> Prop) (l1 l2 : list A) :
  Subsequence l1 l2 -> StronglySorted R l2 -> StronglySorted R l1.
Proof.
  induction 1 as [|x l1 l2 Hsub IH|x l1 l2 Hsub IH]; intros Hs.
  - constructor.
  - inversion Hs as [|? ? Hs' Hall]; subst. constructor; [auto|].
    rewrite Forall_forall in *. intros y Hy.
    apply Hall. eapply Subsequence_In; eassumption.
  - inversion Hs; subst. auto.
Qed.

(** [read_csv] labels the rows 0, 1, 2, ... in file order. *)
Lemma seq_StronglySorted (len start : nat) :
  StronglySorted lt (seq start len).
Proof.
  revert start. induction len as [|len IH]; intros start; simpl; constructor.
  - apply IH.
  - rewrite Forall_forall. intros y Hy. apply in_seq in Hy. lia.
Qed.

Lemma read_csv_labels (rows : list Listing) :
  map fst (read_csv rows) = seq 0 (List.length rows).
Proof.
  unfold read_csv.
  assert (H : forall (l : list Listing) (ns : list nat),
             List.length ns = List.length l -> map fst (combine ns l) = ns).
  { intros l ns. revert l.
    induction ns as [|n ns IH]; intros [|x l] Hl; simpl in *;
      try discriminate; try reflexivity.
    f_equal. apply IH. lia. }
  apply H. apply length_seq.
Qed.

Lemma read_csv_rows (rows : list Listing) :
  map snd (read_csv rows) = rows.
Proof.
  unfold read_csv. generalize 0%nat.
  induction rows as [|r rows IH]; intros n; simpl; [reflexivity|].
  f_equal. apply IH.
Qed.

Lemma read_csv_labels_sorted (rows : list Listing) :
  StronglySorted lt (map fst (read_csv rows)).
Proof.
  rewrite read_csv_labels. apply seq_StronglySorted.
Qed.

(** Widening a selection keeps every row that was selected. *)
Lemma incl_cell_isin (cell : option string) (vs vs' : list string) :
  incl vs vs' -> cell_isin cell vs = true -> cell_isin cell vs' = true.
Proof.
  intros Hincl. rewrite !cell_isin_iff.
  intros [v [Hc Hin]]. exists v. split; [assumption | now apply Hincl].
Qed.

Lemma widens_predicate (sel sel' : FilterSelection) (row : Listing) :
  widens sel sel' -> predicate row sel -> predicate row sel'.
Proof.
  intros Hw (Hb & Ht & Hy & Hp).
  destruct Hw as [bs bs' ts yr pr Hi | bs ts ts' yr pr Hi
                 | bs ts lo hi lo' hi' pr Hlo Hhi
                 | bs ts yr lo hi lo' hi' Hlo Hhi];
    unfold predicate; simpl in *; repeat split; try assumption.
  - destruct Hb as [b [Hb1 Hb2]]. exists b. auto.
  - destruct Ht as [t [Ht1 Ht2]]. exists t. auto.
  - destruct Hy as [y [Hy1 [Hy2 Hy3]]]. exists y. repeat split; [assumption|lia|lia].
  - destruct Hp as [p [Hp1 [Hp2 Hp3]]]. exists p. repeat split; [assumption| |].
    + eapply Qle_trans; eassumption.
    + eapply Qle_trans; eassumption.
Qed.

(** ** The lexicographic order on strings *)

Lemma ascii_compare_refl (a : ascii) : Ascii.compare a a = Eq.
Proof. unfold Ascii.compare. apply N.compare_refl. Qed.

Lemma ascii_compare_lt_trans (a b c : ascii) :
  Ascii.compare a b = Lt -> Ascii.compare b c = Lt -> Ascii.compare a c = Lt.
Proof.
  unfold Ascii.compare. rewrite !N.compare_lt_iff. apply N.lt_trans.
Qed.

Lemma string_compare_refl (s : string) : String.compare s s = Eq.
Proof.
  induction s as [|a s IH]; simpl; [reflexivity|].
  now rewrite ascii_compare_refl.
Qed.

Lemma str_lt_trans (s1 s2 s3 : string) :
  str_lt s1 s2 -> str_lt s2 s3 -> str_lt s1 s3.
Proof.
  unfold str_lt. revert s2 s3.
  induction s1 as [|a s1 IH]; intros [|b s2] [|c s3]; simpl;
    try discriminate; try reflexivity.
  destruct (Ascii.compare a b) eqn:Eab; try discriminate;
    destruct (Ascii.compare b c) eqn:Ebc; try discriminate; intros H1 H2.
  - apply Ascii.compare_eq_iff in Eab, Ebc. subst.
    rewrite ascii_compare_refl. eapply IH; eassumption.
  - apply Ascii.compare_eq_iff in Eab. subst. now rewrite Ebc.
  - apply Ascii.compare_eq_iff in Ebc. subst. now rewrite Eab.
  - now rewrite (ascii_compare_lt_trans _ _ _ Eab Ebc).
Qed.

Lemma str_lt_irrefl (s : string) : ~ str_lt s s.
Proof. unfold str_lt. rewrite string_compare_refl. discriminate. Qed.

Lemma leb_cases (s1 s2 : string) :
  String.leb s1 s2 = true <-> s1 = s2 \/ str_lt s1 s2.
Proof.
  unfold String.leb, str_lt. split.
  - destruct (String.compare s1 s2) eqn:E; intros H; try discriminate.
    + left. now apply String.compare_eq_iff.
    + now right.
  - intros [-> | ->]; [now rewrite string_compare_refl | reflexivity].
Qed.

Lemma leb_trans (s1 s2 s3 : string) :
  String.leb s1 s2 = true -> String.leb s2 s3 = true -> String.leb s1 s3 = true.
Proof.
  rewrite !leb_cases. intros [-> | H1] [-> | H2]; auto.
  right. eapply str_lt_trans; eassumption.
Qed.

(** ** [dropna], [unique] and [sorted] *)

Lemma dropna_In {A : Type} (s : Series A) (v : A) :
  In v (dropna s) <-> In (Some v) s.
Proof.
  induction s as [|[w|] s IH]; simpl.
  - tauto.
  - rewrite IH. split; intros [H|H]; auto.
    + left. now f_equal.
    + left. now injection H.
  - rewrite IH. split; [auto | intros [H|H]; [discriminate | assumption]].
Qed.

Lemma existsb_eqb_In (x : string) (l : list string) :
  existsb (String.eqb x) l = true <-> In x l.
Proof.
  rewrite existsb_exists. split.
  - intros [y [Hin Heq]]. apply String.eqb_eq in Heq. now subst.
  - intros Hin. exists x. split; [assumption | apply String.eqb_refl].
Qed.

Lemma unique_from_In (seen l : list string) (x : string) :
  In x (unique_from seen l) <-> In x l /\ ~ In x seen.
Proof.
  revert seen. induction l as [|y l IH]; intros seen; simpl; [tauto|].
  destruct (existsb (String.eqb y) seen) eqn:E.
  - apply existsb_eqb_In in E. rewrite IH. split.
    + tauto.
    + intros [[-> | H] Hn]; [contradiction | tauto].
  - assert (Hy : ~ In y seen).
    { intros H. apply existsb_eqb_In in H. congruence. }
    simpl. rewrite IH. simpl. split.
    + intros [-> | [H1 H2]]; [tauto|]. split; [tauto|]. intros H. apply H2. now right.
    + intros [[-> | H1] H2]; [now left|].
      destruct (string_dec y x) as [-> | Hne]; [now left|].
      right. split; [assumption|]. intros [H|H]; [now apply Hne | now apply H2].
Qed.

Lemma unique_from_NoDup (seen l : list string) : NoDup (unique_from seen l).
Proof.
  revert seen. induction l as [|y l IH]; intros seen; simpl; [constructor|].
  destruct (existsb (String.eqb y) seen); [apply IH|].
  constructor; [|apply IH].
  rewrite unique_from_In. simpl. tauto.
Qed.

Lemma unique_In (l : list string) (x : string) : In x (unique l) <-> In x l.
Proof. unfold unique. rewrite unique_from_In. simpl. tauto. Qed.

Lemma sorted_In (l : list string) (x : string) : In x (sorted l) <-> In x l.
Proof.
  unfold sorted. split; intros H.
  - eapply Permutation_in; [apply Permutation_sym, StringSort.Permuted_sort | exact H].
  - eapply Permutation_in; [apply StringSort.Permuted_sort | exact H].
Qed.

Lemma sorted_NoDup (l : list string) : NoDup l -> NoDup (sorted l).
Proof.
  unfold sorted. apply Permutation_NoDup, StringSort.Permuted_sort.
Qed.

Lemma sorted_ascending (l : list string) :
  StronglySorted (fun a b => String.leb a b = true) (sorted l).
Proof.
  unfold sorted. apply Sorted_StronglySorted.
  - intros a b c. apply leb_trans.
  - apply StringSort.Sorted_sort.
Qed.

Lemma NoDup_strictly_ascending (l : list string) :
  NoDup l -> StronglySorted (fun a b => String.leb a b = true) l ->
  StronglySorted str_lt l.
Proof.
  intros Hnd Hs. induction Hs as [|x l Hs IH Hall]; [constructor|].
  inversion Hnd as [|? ? Hnotin Hnd']; subst.
  constructor; [auto|].
  rewrite Forall_forall in *. intros y Hy.
  destruct (proj1 (leb_cases x y) (Hall y Hy)) as [-> | H]; [contradiction | exact H].
Qed.

(** The domain of a categorical column, as lines 57 and 60 compute it. *)
Lemma domain_spec (s : Series string) :
  let d := sorted (unique (dropna s)) in
  NoDup d /\ StronglySorted str_lt d /\ forall v, In v d <-> In (Some v) s.
Proof.
  cbv zeta.
  assert (Hnd : NoDup (sorted (unique (dropna s)))).
  { apply sorted_NoDup. apply unique_from_NoDup. }
  split; [exact Hnd|]. split.
  - apply NoDup_strictly_ascending; [exact Hnd | apply sorted_ascending].
  - intros v. rewrite sorted_In, unique_In. apply dropna_In.
Qed.

(** ** [min] and [max] of a column *)

Section Extrema.

Variable A : Type.
Variable le : A -> A -> Prop.
Variable op : A -> A -> A.
Hypothesis le_refl : forall x, le x x.
Hypothesis le_trans : forall x y z, le x y -> le y z -> le x z.
Hypothesis op_choice : forall x y, op x y = x \/ op x y = y.
Hypothesis op_l : forall x y, le (op x y) x.
Hypothesis op_r : forall x y, le (op x y) y.

Lemma reduce_extremum (l : list A) :
  l <> [] ->
  exists m, reduce op l = Some m /\ In m l /\ forall x, In x l -> le m x.
Proof.
  induction l as [|x l IH]; intros Hne; [congruence|].
  simpl. destruct l as [|y l].
  - simpl. exists x. split; [reflexivity|]. split; [now left|].
    intros z [<- | []]. apply le_refl.
  - destruct IH as [m [Hm [Hin Hle]]]; [discriminate|].
    rewrite Hm. exists (op x m). split; [reflexivity|]. split.
    + destruct (op_choice x m) as [-> | ->]; [now left | now right].
    + intros z [<- | Hz]; [apply op_l|].
      eapply le_trans; [apply op_r | now apply Hle].
Qed.

End Extrema.

Lemma Qmin_choice (x y : Q) : Qmin x y = x \/ Qmin x y = y.
Proof.
  unfold Qmin, GenericMinMax.gmin. destruct (Qcompare x y); auto.
Qed.

Lemma Qmax_choice (x y : Q) : Qmax x y = x \/ Qmax x y = y.
Proof.
  unfold Qmax, GenericMinMax.gmax. destruct (Qcompare x y); auto.
Qed.

Lemma min_Z_spec (s : Series Z) :
  dropna s <> [] -> exists m, min_Z s = Some m /\ is_min_Z m (dropna s).
Proof.
  intros H. unfold min_Z, is_min_Z.
  destruct (reduce_extremum Z Z.le Z.min Z.le_refl Z.le_trans) with (l := dropna s)
    as [m Hm]; try assumption.
  - intros x y. destruct (Z.min_spec x y) as [[_ ->] | [_ ->]]; auto.
  - apply Z.le_min_l.
  - apply Z.le_min_r.
  - exists m. tauto.
Qed.

Lemma max_Z_spec (s : Series Z) :
  dropna s <> [] -> exists m, max_Z s = Some m /\ is_max_Z m (dropna s).
Proof.
  intros H. unfold max_Z, is_max_Z.
  destruct (reduce_extremum Z (fun a b => b <= a) Z.max) with (l := dropna s)
    as [m Hm]; try assumption.
  - intros x. apply Z.le_refl.
  - intros x y z H1 H2. eapply Z.le_trans; eassumption.
  - intros x y. destruct (Z.max_spec x y) as [[_ ->] | [_ ->]]; auto.
  - intros x y. apply Z.le_max_l.
  - intros x y. apply Z.le_max_r.
  - exists m. tauto.
Qed.

Lemma min_Q_spec (s : Series Q) :
  dropna s <> [] ->
  exists m, min_Q s = Some m /\ In m (dropna s) /\ is_min_Q m (dropna s).
Proof.
  intros H. unfold min_Q, is_min_Q.
  destruct (reduce_extremum Q Qle Qmin Qle_refl Qle_trans Qmin_choice
              Q.le_min_l Q.le_min_r (dropna s) H) as [m [Hm [Hin Hle]]].
  exists m. repeat split; try assumption.
  exists m. split; [assumption | reflexivity].
Qed.

Lemma max_Q_spec (s : Series Q) :
  dropna s <> [] ->
  exists m, max_Q s = Some m /\ In m (dropna s) /\ is_max_Q m (dropna s).
Proof.
  intros H. unfold max_Q, is_max_Q.
  destruct (reduce_extremum Q (fun a b => Qle b a) Qmax) with (l := dropna s)
    as [m [Hm [Hin Hle]]]; try assumption.
  - intros x. apply Qle_refl.
  - intros x y z H1 H2. eapply Qle_trans; eassumption.
  - apply Qmax_choice.
  - intros x y. apply Q.le_max_l.
  - intros x y. apply Q.le_max_r.
  - exists m. repeat split; try assumption.
    exists m. split; [assumption | reflexivity].
Qed.

(** [int] leaves a whole number unchanged. *)
Lemma trunc_whole (q : Q) (z : Z) : (q == inject_Z z)%Q -> trunc q = z.
Proof.
  unfold Qeq, trunc. destruct q as [n d]. simpl. intros H.
  rewrite Z.mul_1_r in H. subst n. apply Z.quot_mul. discriminate.
Qed.

(** ** The filter *)

(** C1: for every table and every selection the filter returns, without
    raising, exactly the rows that satisfy the conjunction of the four
    conditions (brand selected, bike type selected, year within the year
    range, price within the price range, bounds included), and the count
    shown is the number of those rows. *)
Theorem filtered_df_exact (df : DataFrame) (sel : FilterSelection) :
  exists fdf,
    filtered_df df sel = Ok fdf /\
    (forall ir, In ir fdf <-> In ir df /\ predicate (snd ir) sel) /\
    satisfying sel df fdf /\
    (forall out, satisfying sel df out ->
                 total_listings (metrics fdf) = List.length out).
Proof.
  exists (List.filter (fun ir => row_mask sel (snd ir)) df).
  split; [apply filtered_df_filter|]. split; [|split].
  - intros ir. rewrite filter_In, row_mask_iff. tauto.
  - apply satisfying_filter.
  - intros out Hout. simpl. f_equal.
    eapply satisfying_functional; [apply satisfying_filter | exact Hout].
Qed.

(** C3: widening one dimension of the selection (more brands, more types,
    a containing year range or a containing price range), the others
    unchanged, never decreases the count. *)
Theorem count_monotone (df : DataFrame) (sel sel' : FilterSelection) :
  widens sel sel' ->
  exists fdf fdf',
    filtered_df df sel = Ok fdf /\
    filtered_df df sel' = Ok fdf' /\
    (total_listings (metrics fdf) <= total_listings (metrics fdf'))%nat.
Proof.
  intros Hw. rewrite !filtered_df_filter.
  eexists. eexists. split; [reflexivity|]. split; [reflexivity|].
  simpl. apply filter_length_mono.
  intros ir _. rewrite !row_mask_iff. now apply widens_predicate.
Qed.

(** C4: with no brand selected, or no bike type selected, the filter
    returns the empty table without raising; the count is 0 and both means
    are NaN (shown as not available), no error being raised. *)
Theorem empty_selection_empty_result (df : DataFrame) (sel : FilterSelection) :
  selected_brand sel = [] \/ selected_type sel = [] ->
  exists fdf,
    filtered_df df sel = Ok fdf /\
    fdf = [] /\
    total_listings (metrics fdf) = 0%nat /\
    average_price (metrics fdf) = None /\
    average_year (metrics fdf) = None.
Proof.
  intros H. exists []. repeat split.
  rewrite filtered_df_filter. apply f_equal. apply filter_none.
  intros [i row] _. apply row_mask_false. simpl.
  intros ([b [_ Hb]] & [t [_ Ht]] & _).
  destruct H as [H | H]; rewrite H in *; contradiction.
Qed.

(** C6: when the year range or the price range has its low end above its
    high end, the filter raises nothing and returns the empty table. *)
Theorem inverted_range_empty_result (df : DataFrame) (sel : FilterSelection) :
  snd (year_range sel) < fst (year_range sel) \/
  (snd (price_range sel) < fst (price_range sel))%Q ->
  filtered_df df sel = Ok [].
Proof.
  intros H. rewrite filtered_df_filter. apply f_equal. apply filter_none.
  intros [i row] _. apply row_mask_false. simpl.
  intros (_ & _ & [y [_ [Hy1 Hy2]]] & [p [_ [Hp1 Hp2]]]).
  destruct H as [H | H].
  - lia.
  - apply (Qlt_irrefl (fst (price_range sel))).
    eapply Qle_lt_trans; [|exact H]. eapply Qle_trans; eassumption.
Qed.

(** C7: the filtered rows come in the order they have in the base table:
    the result is the table with rows removed, so ascending index labels
    stay ascending. *)
Theorem filter_preserves_order (df : DataFrame) (sel : FilterSelection) :
  exists fdf,
    filtered_df df sel = Ok fdf /\
    Subsequence fdf df /\
    (StronglySorted lt (map fst df) -> StronglySorted lt (map fst fdf)).
Proof.
  exists (List.filter (fun ir => row_mask sel (snd ir)) df).
  split; [apply filtered_df_filter|].
  assert (Hsub : Subsequence (List.filter (fun ir => row_mask sel (snd ir)) df) df)
    by apply filter_Subsequence.
  split; [exact Hsub|].
  apply Subsequence_StronglySorted. now apply Subsequence_labels.
Qed.

(** ** The sidebar domains *)

(** C8: the brand options and the bike-type options hold no duplicate, hold
    exactly the non-missing values of their column, and are in strictly
    ascending lexicographic order. *)
Theorem domains_sorted_distinct (df : DataFrame) :
  (NoDup (brands df) /\ StronglySorted str_lt (brands df) /\
   forall b, In b (brands df) <-> In (Some b) (col Brand df)) /\
  (NoDup (bike_types df) /\ StronglySorted str_lt (bike_types df) /\
   forall t, In t (bike_types df) <-> In (Some t) (col Bike_Type df)).
Proof.
  split; [apply (domain_spec (col Brand df)) | apply (domain_spec (col Bike_Type df))].
Qed.

(** C5 as amended: when the year and price columns keep at least one value
    after dropping the missing ones, neither bound computation raises; the
    year bounds are the true minimum and maximum of the non-missing years;
    the price bounds are the true minimum and maximum of the non-missing
    prices with [int] applied, that is truncated toward zero, and they are
    the true extrema themselves whenever those are whole numbers. *)
Theorem slider_bounds (df : DataFrame) :
  dropna (col Year df) <> [] ->
  dropna (col Price df) <> [] ->
  exists ymin ymax pmin pmax,
    is_min_Z ymin (dropna (col Year df)) /\
    is_max_Z ymax (dropna (col Year df)) /\
    is_min_Q pmin (dropna (col Price df)) /\
    is_max_Q pmax (dropna (col Price df)) /\
    year_bounds df = Ok (ymin, ymax) /\
    price_bounds df = Ok (trunc pmin, trunc pmax) /\
    (forall z, (pmin == inject_Z z)%Q -> trunc pmin = z) /\
    (forall z, (pmax == inject_Z z)%Q -> trunc pmax = z).
Proof.
  intros Hy Hp.
  destruct (min_Z_spec _ Hy) as [ymin [Eymin Hymin]].
  destruct (max_Z_spec _ Hy) as [ymax [Eymax Hymax]].
  destruct (min_Q_spec _ Hp) as [pmin [Epmin [_ Hpmin]]].
  destruct (max_Q_spec _ Hp) as [pmax [Epmax [_ Hpmax]]].
  exists ymin, ymax, pmin, pmax.
  unfold year_bounds, price_bounds.
  rewrite Eymin, Eymax, Epmin, Epmax. simpl.
  repeat split; try tauto; try apply Hymin; try apply Hymax;
    try apply Hpmin; try apply Hpmax; intros z; apply trunc_whole.
Qed.

(** ** The scenario of the specification *)

(** C2: on the table (Honda, 2012, 150000), (Honda, 2015, 300000),
    (Yamaha, 2018, 500000), whatever the bike types of the three rows, with
    the selection brands = {Honda}, types = all the bike types of the table,
    years 2010 to 2023, prices 0 to 1000000, the filter returns the two
    Honda rows, the count is 2, the mean price is 225000 and the mean year
    is 2013.5. *)
Theorem scenario_honda (t1 t2 t3 : string) :
  let df := read_csv (scenario_rows t1 t2 t3) in
  let sel := mkSelection ["Honda"%string] (bike_types df)
                         (2010, 2023) (0, inject_Z 1000000)%Q in
  exists fdf price year,
    filtered_df df sel = Ok fdf /\
    fdf = [(0%nat, mkListing (Some "Honda"%string) (Some t1)
                             (Some 2012) (Some (inject_Z 150000)));
           (1%nat, mkListing (Some "Honda"%string) (Some t2)
                             (Some 2015) (Some (inject_Z 300000)))] /\
    total_listings (metrics fdf) = 2%nat /\
    average_price (metrics fdf) = Some price /\
    (price == inject_Z 225000)%Q /\
    average_year (metrics fdf) = Some year /\
    (year == 4027 # 2)%Q.
Proof.
  intros df sel.
  assert (Hin : forall t, In t [t1; t2; t3] ->
                          cell_isin (Some t) (bike_types df) = true).
  { intros t Ht. simpl. apply existsb_eqb_In.
    apply (proj2 (proj2 (domain_spec (col Bike_Type df)))).
    simpl in *. intuition (subst; auto). }
  pose proof (Hin t1 (or_introl eq_refl)) as H1.
  pose proof (Hin t2 (or_intror (or_introl eq_refl))) as H2.
  subst sel. set (ts := bike_types df) in *. clearbody ts.
  simpl in H1, H2.
  eexists. eexists. eexists.
  split.
  - rewrite filtered_df_filter.
    unfold df, read_csv, scenario_rows, row_mask. simpl.
    rewrite H1, H2. reflexivity.
  - split; [reflexivity|]. split; [reflexivity|].
    split; [reflexivity|]. split; [reflexivity|].
    split; reflexivity.
Qed.

(** ** Missing categories *)

Lemma row_mask_has_categories (sel : FilterSelection) (row : Listing) :
  row_mask sel row = true -> has_categories row = true.
Proof.
  unfold row_mask, has_categories.
  destruct (Brand row), (Bike_Type row); simpl;
    rewrite ?andb_false_r; auto; discriminate.
Qed.

Lemma filter_has_categories (sel : FilterSelection) (df : DataFrame) :
  List.filter (fun ir => row_mask sel (snd ir))
              (List.filter (fun ir => has_categories (snd ir)) df) =
  List.filter (fun ir => row_mask sel (snd ir)) df.
Proof.
  induction df as [|ir df IH]; simpl; [reflexivity|].
  destruct (has_categories (snd ir)) eqn:Ec; simpl.
  - now rewrite IH.
  - destruct (row_mask sel (snd ir)) eqn:Em; [|exact IH].
    apply row_mask_has_categories in Em. congruence.
Qed.

(** C10: whatever the selection, the mask cell of a row whose brand or bike
    type is missing is [False]; every row of the filtered table has both,
    and the filtered table, hence every aggregate computed from it, is the
    one obtained from the table with those rows removed beforehand. *)
Theorem missing_category_never_selected (df : DataFrame) (sel : FilterSelection) :
  exists fdf,
    filtered_df df sel = Ok fdf /\
    (forall i row, Brand row = None \/ Bike_Type row = None ->
                   filter_mask [(i, row)] sel = [false] /\ ~ In (i, row) fdf) /\
    Forall (fun ir => exists b t, Brand (snd ir) = Some b /\
                                  Bike_Type (snd ir) = Some t) fdf /\
    filtered_df (List.filter (fun ir => has_categories (snd ir)) df) sel = Ok fdf.
Proof.
  exists (List.filter (fun ir => row_mask sel (snd ir)) df).
  split; [apply filtered_df_filter|]. split; [|split].
  - intros i row Hmiss.
    assert (Hm : row_mask sel row = false).
    { unfold row_mask.
      destruct Hmiss as [-> | ->]; simpl; [reflexivity|].
      now rewrite andb_false_r. }
    split.
    + rewrite filter_mask_rows. simpl. now rewrite Hm.
    + rewrite filter_In. simpl. rewrite Hm. intros [_ H]. discriminate.
  - rewrite Forall_forall. intros [i row] Hin.
    apply filter_In in Hin. destruct Hin as [_ Hm].
    apply row_mask_has_categories in Hm. unfold has_categories in Hm. simpl in *.
    destruct (Brand row) as [b|], (Bike_Type row) as [t|]; try discriminate.
    exists b, t. auto.
  - rewrite filtered_df_filter. apply f_equal. apply filter_has_categories.
Qed.

(** ** Instances on concrete tables *)

(** The amended C5 cannot drop the truncation: on a table whose only price
    is 150000.50 both price bounds are 150000, which is neither the minimum
    nor the maximum of the price column. *)
Lemma price_bounds_truncated :
  dropna (col Year half_rupee_table) <> [] /\
  dropna (col Price half_rupee_table) <> [] /\
  price_bounds half_rupee_table = Ok (150000, 150000) /\
  ~ is_min_Q (inject_Z 150000) (dropna (col Price half_rupee_table)) /\
  ~ is_max_Q (inject_Z 150000) (dropna (col Price half_rupee_table)).
Proof.
  split; [discriminate|]. split; [discriminate|]. split; [reflexivity|].
  split; intros [[x [Hin Heq]] _]; simpl in Hin;
    destruct Hin as [<- | []]; vm_compute in Heq; discriminate.
Qed.

Lemma slider_bounds_witness :
  dropna (col Year sample_table) <> [] /\
  dropna (col Price sample_table) <> [] /\
  exists ymin ymax pmin pmax,
    is_min_Z ymin (dropna (col Year sample_table)) /\
    is_max_Z ymax (dropna (col Year sample_table)) /\
    is_min_Q pmin (dropna (col Price sample_table)) /\
    is_max_Q pmax (dropna (col Price sample_table)) /\
    year_bounds sample_table = Ok (ymin, ymax) /\
    price_bounds sample_table = Ok (trunc pmin, trunc pmax) /\
    (forall z, (pmin == inject_Z z)%Q -> trunc pmin = z) /\
    (forall z, (pmax == inject_Z z)%Q -> trunc pmax = z).
Proof.
  split; [simpl; discriminate|]. split; [simpl; discriminate|].
  apply (slider_bounds sample_table); simpl; discriminate.
Defined.

Lemma count_monotone_witness :
  widens sample_selection wider_selection /\
  exists fdf fdf',
    filtered_df sample_table sample_selection = Ok fdf /\
    filtered_df sample_table wider_selection = Ok fdf' /\
    (total_listings (metrics fdf) <= total_listings (metrics fdf'))%nat.
Proof.
  assert (H : widens sample_selection wider_selection).
  { apply widen_brands. intros x Hx. simpl in *. tauto. }
  split; [exact H|].
  apply (count_monotone sample_table _ _ H).
Defined.

Lemma empty_selection_witness :
  (selected_brand no_brand_selection = [] \/
   selected_type no_brand_selection = []) /\
  exists fdf,
    filtered_df sample_table no_brand_selection = Ok fdf /\
    fdf = [] /\
    total_listings (metrics fdf) = 0%nat /\
    average_price (metrics fdf) = None /\
    average_year (metrics fdf) = None.
Proof.
  split; [left; reflexivity|].
  apply (empty_selection_empty_result sample_table). left. reflexivity.
Defined.

Lemma inverted_range_witness :
  (snd (year_range inverted_selection) < fst (year_range inverted_selection) \/
   (snd (price_range inverted_selection) < fst (price_range inverted_selection))%Q) /\
  filtered_df sample_table inverted_selection = Ok [].
Proof.
  split; [left; simpl; lia|].
  apply (inverted_range_empty_result sample_table). left. simpl. lia.
Defined.

(** * Further properties *)

(** ** Selecting every option *)

Lemma cell_isin_domain (s : Series string) (cell : option string) :
  In cell s ->
  cell_isin cell (sorted (unique (dropna s))) = true <-> cell <> None.
Proof.
  intros Hin. rewrite cell_isin_iff. split.
  - intros [v [-> _]]. discriminate.
  - destruct cell as [v|]; [|congruence]. intros _.
    exists v. split; [reflexivity|].
    now apply (proj2 (proj2 (domain_spec s))).
Qed.

(** X1: with every brand and every bike type selected, which is what both
    multiselects start with, the two category conditions only remove the
    rows whose brand or bike type is missing: the filter keeps exactly the
    rows that have both and whose year and price are within the ranges. *)
Theorem all_options_selected (df : DataFrame) (yr : Z * Z) (pr : Q * Q) :
  exists fdf,
    filtered_df df (mkSelection (brands df) (bike_types df) yr pr) = Ok fdf /\
    forall ir,
      In ir fdf <->
      In ir df /\
      Brand (snd ir) <> None /\
      Bike_Type (snd ir) <> None /\
      (exists y, Year (snd ir) = Some y /\ fst yr <= y /\ y <= snd yr) /\
      (exists p, Price (snd ir) = Some p /\ (fst pr <= p)%Q /\ (p <= snd pr)%Q).
Proof.
  eexists. split; [apply filtered_df_filter|].
  intros ir. rewrite filter_In. unfold row_mask. simpl.
  rewrite !andb_true_iff, cell_between_Z_iff, cell_between_Q_iff.
  split.
  - intros [Hin [[[Hb Ht] Hy] Hp]].
    apply cell_isin_domain in Hb; [|unfold col; apply in_map_iff; eauto].
    apply cell_isin_domain in Ht; [|unfold col; apply in_map_iff; eauto].
    tauto.
  - intros [Hin [Hb [Ht [Hy Hp]]]].
    repeat split; try assumption.
    + apply cell_isin_domain; [unfold col; apply in_map_iff; eauto | exact Hb].
    + apply cell_isin_domain; [unfold col; apply in_map_iff; eauto | exact Ht].
Qed.

(** ** A range reduced to one value *)

(** X2: both ends of a range are included: with the year range [y, y] and the
    price range [p, p] the filter keeps exactly the rows of the selected
    brands and types whose year is [y] and whose price equals [p]. *)
Theorem single_value_ranges (df : DataFrame) (bs ts : list string) (y : Z) (p : Q) :
  exists fdf,
    filtered_df df (mkSelection bs ts (y, y) (p, p)) = Ok fdf /\
    forall ir,
      In ir fdf <->
      In ir df /\
      (exists b, Brand (snd ir) = Some b /\ In b bs) /\
      (exists t, Bike_Type (snd ir) = Some t /\ In t ts) /\
      Year (snd ir) = Some y /\
      (exists q, Price (snd ir) = Some q /\ (q == p)%Q).
Proof.
  eexists. split; [apply filtered_df_filter|].
  intros ir. rewrite filter_In, row_mask_iff. unfold predicate. simpl.
  split.
  - intros [Hin [Hb [Ht [[y' [Hy [Hy1 Hy2]]] [q [Hq [Hq1 Hq2]]]]]]].
    repeat split; try assumption.
    + rewrite Hy. f_equal. lia.
    + exists q. split; [assumption|]. now apply Qle_antisym.
  - intros [Hin [Hb [Ht [Hy [q [Hq Heq]]]]]].
    repeat split; try assumption.
    + exists y. split; [assumption|]. lia.
    + exists q. split; [assumption|]. split; rewrite Heq; apply Qle_refl.
Qed.

(** ** Index labels of the filtered table *)

Lemma combine_seq_nth (rows : list Listing) (start i : nat) (row : Listing) :
  In (i, row) (combine (seq start (List.length rows)) rows) ->
  (start <= i)%nat /\ nth_error rows (i - start) = Some row.
Proof.
  revert start. induction rows as [|r rows IH]; intros start; simpl; [tauto|].
  intros [H | H].
  - injection H as <- <-. rewrite Nat.sub_diag. split; [lia | reflexivity].
  - apply IH in H. destruct H as [Hle Hnth]. split; [lia|].
    replace (i - start)%nat with (S (i - S start)) by lia. exact Hnth.
Qed.

Lemma filter_labels_NoDup (f : nat * Listing -> bool) (df : DataFrame) :
  NoDup (map fst df) -> NoDup (map fst (List.filter f df)).
Proof.
  induction df as [|ir df IH]; simpl; intros H; [constructor|].
  inversion H as [|? ? Hnotin Hnd]; subst.
  destruct (f ir); simpl; [|auto].
  constructor; [|auto].
  intros Hin. apply Hnotin. apply in_map_iff in Hin.
  destruct Hin as [x [Hx Hin]]. apply filter_In in Hin.
  apply in_map_iff. exists x. tauto.
Qed.

(** X3: [df[mask]] keeps the labels that [read_csv] gave: in the filtered table
    no label occurs twice, and the row that carries label [i] is row [i] of
    the file (counting from 0). *)
Theorem filtered_labels_point_to_rows (csv : list Listing) (sel : FilterSelection) :
  exists fdf,
    filtered_df (read_csv csv) sel = Ok fdf /\
    NoDup (map fst fdf) /\
    forall i row, In (i, row) fdf -> nth_error csv i = Some row.
Proof.
  eexists. split; [apply filtered_df_filter|]. split.
  - apply filter_labels_NoDup. rewrite read_csv_labels. apply seq_NoDup.
  - intros i row Hin. apply filter_In in Hin. destruct Hin as [Hin _].
    apply combine_seq_nth in Hin. rewrite Nat.sub_0_r in Hin. tauto.
Qed.

(** ** The means and the count *)

Lemma dropna_full {A : Type} (s : Series A) :
  Forall (fun cell => cell <> None) s -> List.length (dropna s) = List.length s.
Proof.
  induction 1 as [|[v|] s Hc _ IH]; simpl; congruence.
Qed.

Lemma dropna_as_float (s : Series Z) :
  dropna (as_float s) = map inject_Z (dropna s).
Proof.
  induction s as [|[v|] s IH]; simpl; congruence.
Qed.

Lemma mean_None (s : Series Q) : mean s = None <-> dropna s = [].
Proof.
  unfold mean. destruct (dropna s); split; congruence.
Qed.

(** Every row that passes the filter has a year and a price. *)
Lemma row_mask_has_numbers (sel : FilterSelection) (row : Listing) :
  row_mask sel row = true -> Year row <> None /\ Price row <> None.
Proof.
  rewrite row_mask_iff. intros (_ & _ & [y [Hy _]] & [p [Hp _]]).
  rewrite Hy, Hp. split; discriminate.
Qed.

Lemma filtered_col_full {A : Type} (c : Listing -> option A)
  (sel : FilterSelection) (df : DataFrame) :
  (forall row, row_mask sel row = true -> c row <> None) ->
  Forall (fun cell => cell <> None)
         (col c (List.filter (fun ir => row_mask sel (snd ir)) df)).
Proof.
  intros H. unfold col. rewrite Forall_forall. intros cell Hin.
  apply in_map_iff in Hin. destruct Hin as [ir [<- Hin]].
  apply filter_In in Hin. apply H. tauto.
Qed.

(** X4: a comparison with a missing cell being [False], every filtered row
    has a year and a price.  So [mean], which skips missing cells, skips
    none: each mean is taken over as many cells as the count counts, and a
    mean is NaN exactly when the count is 0. *)
Theorem mean_nan_iff_no_listing (df : DataFrame) (sel : FilterSelection) :
  exists fdf,
    filtered_df df sel = Ok fdf /\
    Forall (fun ir => exists y p, Year (snd ir) = Some y /\
                                  Price (snd ir) = Some p) fdf /\
    List.length (dropna (col Price fdf)) = total_listings (metrics fdf) /\
    List.length (dropna (col Year fdf)) = total_listings (metrics fdf) /\
    (average_price (metrics fdf) = None <-> total_listings (metrics fdf) = 0%nat) /\
    (average_year (metrics fdf) = None <-> total_listings (metrics fdf) = 0%nat).
Proof.
  eexists. split; [apply filtered_df_filter|].
  set (fdf := List.filter (fun ir => row_mask sel (snd ir)) df).
  assert (Hp : List.length (dropna (col Price fdf)) = List.length fdf).
  { rewrite dropna_full.
    - unfold col. apply length_map.
    - apply filtered_col_full. intros row Hm. now apply row_mask_has_numbers in Hm. }
  assert (Hy : List.length (dropna (col Year fdf)) = List.length fdf).
  { rewrite dropna_full.
    - unfold col. apply length_map.
    - apply filtered_col_full. intros row Hm. now apply row_mask_has_numbers in Hm. }
  cbn [metrics total_listings average_price average_year].
  split; [|split; [exact Hp|]; split; [exact Hy|]; split].
  - rewrite Forall_forall. intros [i row] Hin. apply filter_In in Hin.
    destruct Hin as [_ Hm]. apply row_mask_iff in Hm.
    destruct Hm as (_ & _ & [y [Hy' _]] & [p [Hp' _]]). exists y, p. auto.
  - rewrite mean_None, <- Hp. symmetry. apply length_zero_iff_nil.
  - rewrite mean_None, dropna_as_float, <- Hy.
    rewrite <- (length_map inject_Z). symmetry. apply length_zero_iff_nil.
Qed.

(** ** When the sidebar raises *)

Lemma col_read_csv {A : Type} (c : Listing -> option A) (csv : list Listing) :
  col c (read_csv csv) = map c csv.
Proof.
  unfold col. rewrite <- (read_csv_rows csv) at 2. now rewrite map_map.
Qed.

Lemma reduce_Some {A : Type} (op : A -> A -> A) (l : list A) :
  l <> [] -> exists m, reduce op l = Some m.
Proof.
  destruct l as [|x l]; [congruence|]. intros _. simpl.
  destruct (reduce op l); eauto.
Qed.

Lemma year_bounds_outcome (df : DataFrame) :
  (dropna (col Year df) = [] -> year_bounds df = Raise ValueError) /\
  (dropna (col Year df) <> [] -> exists yb, year_bounds df = Ok yb).
Proof.
  unfold year_bounds, min_Z, max_Z. split.
  - intros ->. reflexivity.
  - intros H.
    destruct (reduce_Some Z.min _ H) as [lo ->].
    destruct (reduce_Some Z.max _ H) as [hi ->].
    simpl. eauto.
Qed.

Lemma price_bounds_outcome (df : DataFrame) :
  (dropna (col Price df) = [] -> price_bounds df = Raise ValueError) /\
  (dropna (col Price df) <> [] -> exists pb, price_bounds df = Ok pb).
Proof.
  unfold price_bounds, min_Q, max_Q. split.
  - intros ->. reflexivity.
  - intros H.
    destruct (reduce_Some Qmin _ H) as [lo ->].
    destruct (reduce_Some Qmax _ H) as [hi ->].
    simpl. eauto.
Qed.

(** X6: the bounds of a slider are computed with [int] of the column's
    minimum and maximum, which is NaN when no cell of the column is left
    after the missing ones are skipped: each of lines 63 and 66 raises
    [ValueError] exactly when its column has no value (an empty table for
    one) and gives a pair of bounds otherwise. *)
Theorem bounds_raise_iff (df : DataFrame) :
  (year_bounds df = Raise ValueError <-> dropna (col Year df) = []) /\
  ((exists yb, year_bounds df = Ok yb) <-> dropna (col Year df) <> []) /\
  (price_bounds df = Raise ValueError <-> dropna (col Price df) = []) /\
  ((exists pb, price_bounds df = Ok pb) <-> dropna (col Price df) <> []).
Proof.
  destruct (year_bounds_outcome df) as [Hy0 Hy1].
  destruct (price_bounds_outcome df) as [Hp0 Hp1].
  split; [|split; [|split]].
  - split; [|exact Hy0]. intros H.
    destruct (dropna (col Year df)) as [|y ys]; [reflexivity|].
    destruct Hy1 as [yb Hyb]; [discriminate|]. congruence.
  - split; [|exact Hy1]. intros [yb H] E. rewrite (Hy0 E) in H. discriminate.
  - split; [|exact Hp0]. intros H.
    destruct (dropna (col Price df)) as [|p ps]; [reflexivity|].
    destruct Hp1 as [pb Hpb]; [discriminate|]. congruence.
  - split; [|exact Hp1]. intros [pb H] E. rewrite (Hp0 E) in H. discriminate.
Qed.

(** ** The options do not depend on the order of the rows *)

Lemma strictly_ascending_ext (l1 l2 : list string) :
  StronglySorted str_lt l1 -> StronglySorted str_lt l2 ->
  (forall x, In x l1 <-> In x l2) -> l1 = l2.
Proof.
  intros H1. revert l2.
  induction H1 as [|x l1 Hs1 IH Hall1]; intros l2 H2 Hiff.
  - destruct l2 as [|y l2]; [reflexivity|].
    exfalso. apply (proj2 (Hiff y)). now left.
  - destruct H2 as [|y l2 Hs2 Hall2].
    + exfalso. apply (proj1 (Hiff x)). now left.
    + rewrite Forall_forall in Hall1, Hall2.
      assert (Hxy : x = y).
      { destruct (proj1 (Hiff x) (or_introl eq_refl)) as [E | Hx]; [now symmetry|].
        destruct (proj2 (Hiff y) (or_introl eq_refl)) as [E | Hy]; [assumption|].
        exfalso. apply (str_lt_irrefl x).
        eapply str_lt_trans; [apply Hall1, Hy | apply Hall2, Hx]. }
      subst y. f_equal. apply IH; [exact Hs2|].
      intros z. split; intros Hz.
      * destruct (proj1 (Hiff z) (or_intror Hz)) as [E | Hz']; [|exact Hz'].
        subst z. exfalso. apply (str_lt_irrefl x). now apply Hall1.
      * destruct (proj2 (Hiff z) (or_intror Hz)) as [E | Hz']; [|exact Hz'].
        subst z. exfalso. apply (str_lt_irrefl x). now apply Hall2.
Qed.

Lemma domain_ext (s1 s2 : Series string) :
  (forall v, In (Some v) s1 <-> In (Some v) s2) ->
  sorted (unique (dropna s1)) = sorted (unique (dropna s2)).
Proof.
  intros H.
  destruct (domain_spec s1) as [_ [Hs1 Hin1]].
  destruct (domain_spec s2) as [_ [Hs2 Hin2]].
  apply strictly_ascending_ext; try assumption.
  intros x. rewrite Hin1, Hin2. apply H.
Qed.

(** X7: reordering the rows of the file changes neither the brand options nor
    the bike-type options, although [unique] lists values in order of first
    appearance: [sorted] makes the order of the rows irrelevant. *)
Theorem domains_ignore_row_order (csv csv' : list Listing) :
  Permutation csv csv' ->
  brands (read_csv csv) = brands (read_csv csv') /\
  bike_types (read_csv csv) = bike_types (read_csv csv').
Proof.
  intros Hperm. unfold brands, bike_types. rewrite !col_read_csv.
  split; apply domain_ext; intros v; split; apply Permutation_in;
    try (apply Permutation_map; assumption);
    apply Permutation_map; now apply Permutation_sym.
Qed.

(** ** The listings preview *)

Lemma StronglySorted_app_lt (l1 l2 : list nat) :
  StronglySorted lt (l1 ++ l2) ->
  forall x y, In x l1 -> In y l2 -> (x < y)%nat.
Proof.
  induction l1 as [|a l1 IH]; simpl; intros Hs x y Hx Hy; [contradiction|].
  inversion Hs as [|? ? Hs' Hall]; subst.
  destruct Hx as [<- | Hx].
  - rewrite Forall_forall in Hall. apply Hall. apply in_or_app. now right.
  - now apply IH.
Qed.

(** X8: the preview of line 152 shows 100 filtered rows, or all of them when
    they are fewer; these are the first ones in file order: each previewed
    row comes, in the file, before every filtered row that is not
    previewed. *)
Theorem preview_first_matches (csv : list Listing) (sel : FilterSelection) :
  exists fdf,
    filtered_df (read_csv csv) sel = Ok fdf /\
    List.length (head 100 fdf) = Nat.min 100 (total_listings (metrics fdf)) /\
    (forall ir, In ir (head 100 fdf) -> In ir fdf) /\
    (forall i row j row',
        In (i, row) (head 100 fdf) ->
        In (j, row') fdf -> ~ In (j, row') (head 100 fdf) ->
        (i < j)%nat).
Proof.
  eexists. split; [apply filtered_df_filter|].
  set (fdf := List.filter (fun ir => row_mask sel (snd ir)) (read_csv csv)).
  unfold head. split; [apply length_firstn|]. split.
  - intros ir Hin. rewrite <- (firstn_skipn 100 fdf).
    apply in_or_app. now left.
  - intros i row j row' Hi Hj Hnot.
    assert (Hs : StronglySorted lt (map fst (firstn 100 fdf) ++ map fst (skipn 100 fdf))).
    { rewrite <- map_app, firstn_skipn.
      apply (Subsequence_StronglySorted lt _ (map fst (read_csv csv))).
      - apply Subsequence_labels, filter_Subsequence.
      - apply read_csv_labels_sorted. }
    apply (StronglySorted_app_lt _ _ Hs).
    + apply in_map_iff. exists (i, row). auto.
    + rewrite <- (firstn_skipn 100 fdf) in Hj. apply in_app_or in Hj.
      destruct Hj as [Hj | Hj]; [contradiction|].
      apply in_map_iff. exists (j, row'). auto.
Qed.

(** ** What the slider bounds enclose *)

Lemma Qnum_nonneg (q : Q) : (0 <= q)%Q <-> 0 <= Qnum q.
Proof. unfold Qle. simpl. rewrite Z.mul_1_r. reflexivity. Qed.

Lemma trunc_floor (q : Q) : 0 <= Qnum q -> trunc q = Qfloor q.
Proof.
  destruct q as [n d]. unfold trunc, Qfloor. simpl. intros H.
  apply Z.quot_div_nonneg; lia.
Qed.

Lemma trunc_ceiling (q : Q) : Qnum q <= 0 -> trunc q = Qceiling q.
Proof.
  destruct q as [n d]. unfold trunc, Qceiling, Qfloor, Qopp. simpl. intros H.
  rewrite <- (Z.opp_involutive n) at 1.
  rewrite Z.quot_opp_l by discriminate.
  f_equal. apply Z.quot_div_nonneg; lia.
Qed.

Lemma inject_Z_pred (z : Z) : (inject_Z (z - 1) == inject_Z z - 1)%Q.
Proof.
  unfold Z.sub. rewrite inject_Z_plus, inject_Z_opp. reflexivity.
Qed.

Lemma inject_Z_succ (z : Z) : (inject_Z (z + 1) == inject_Z z + 1)%Q.
Proof. rewrite inject_Z_plus. reflexivity. Qed.

Lemma Qlt_pred (q : Q) : (q - 1 < q)%Q.
Proof.
  rewrite <- (Qplus_0_r q) at 2. unfold Qminus.
  apply Qplus_lt_r. reflexivity.
Qed.

Lemma Qlt_succ (q : Q) : (q < q + 1)%Q.
Proof.
  rewrite <- (Qplus_0_r q) at 1. apply Qplus_lt_r. reflexivity.
Qed.

(** [int] moves a number by less than one, toward zero. *)
Lemma trunc_lower (q : Q) : (inject_Z (trunc q) - 1 < q)%Q.
Proof.
  destruct (Z.le_gt_cases 0 (Qnum q)) as [H | H].
  - rewrite (trunc_floor q H).
    eapply Qlt_le_trans; [apply Qlt_pred | apply Qfloor_le].
  - rewrite (trunc_ceiling q) by lia.
    rewrite <- inject_Z_pred. apply Qceiling_lt.
Qed.

Lemma trunc_upper (q : Q) : (q < inject_Z (trunc q) + 1)%Q.
Proof.
  destruct (Z.le_gt_cases 0 (Qnum q)) as [H | H].
  - rewrite (trunc_floor q H).
    rewrite <- inject_Z_succ. apply Qlt_floor.
  - rewrite (trunc_ceiling q) by lia.
    eapply Qle_lt_trans; [apply Qle_ceiling | apply Qlt_succ].
Qed.

Lemma trunc_le_nonneg (q : Q) : (0 <= q)%Q -> (inject_Z (trunc q) <= q)%Q.
Proof.
  intros H. apply Qnum_nonneg in H. rewrite (trunc_floor q H). apply Qfloor_le.
Qed.

Lemma trunc_mono (q1 q2 : Q) : (q1 <= q2)%Q -> trunc q1 <= trunc q2.
Proof.
  intros Hle.
  destruct (Z.le_gt_cases 0 (Qnum q1)) as [H1 | H1];
    destruct (Z.le_gt_cases 0 (Qnum q2)) as [H2 | H2].
  - rewrite (trunc_floor q1 H1), (trunc_floor q2 H2). now apply Qfloor_resp_le.
  - exfalso. apply Qnum_nonneg in H1.
    assert (H : (0 <= q2)%Q) by (eapply Qle_trans; eassumption).
    apply Qnum_nonneg in H. lia.
  - rewrite (trunc_ceiling q1) by lia. rewrite (trunc_floor q2 H2).
    apply Z.le_trans with 0.
    + rewrite <- (Qceiling_Z 0). apply Qceiling_resp_le.
      unfold Qle. simpl. lia.
    + rewrite <- (Qfloor_Z 0). apply Qfloor_resp_le. now apply Qnum_nonneg.
  - rewrite (trunc_ceiling q1), (trunc_ceiling q2) by lia.
    now apply Qceiling_resp_le.
Qed.

Lemma in_col {A : Type} (c : Listing -> option A) (df : DataFrame)
  (i : nat) (row : Listing) (v : A) :
  In (i, row) df -> c row = Some v -> In v (dropna (col c df)).
Proof.
  intros Hin Hc. apply dropna_In. unfold col. apply in_map_iff.
  exists (i, row). auto.
Qed.

(** X9: when the year bounds are computed, the lower one is not above the
    upper one and every year of the table lies between them: the full
    extent of the year slider leaves out no row that has a year. *)
Theorem year_bounds_enclose (df : DataFrame) (lo hi : Z) :
  year_bounds df = Ok (lo, hi) ->
  lo <= hi /\
  forall i row y, In (i, row) df -> Year row = Some y -> lo <= y /\ y <= hi.
Proof.
  intros Hb.
  assert (Hne : dropna (col Year df) <> []).
  { intros E. rewrite (proj1 (year_bounds_outcome df) E) in Hb. discriminate. }
  destruct (min_Z_spec _ Hne) as [m1 [E1 [Hin1 Hmin]]].
  destruct (max_Z_spec _ Hne) as [m2 [E2 [Hin2 Hmax]]].
  unfold year_bounds in Hb. rewrite E1, E2 in Hb. simpl in Hb.
  injection Hb as <- <-. split.
  - now apply Hmin.
  - intros i row y Hin Hy. pose proof (in_col Year df i row y Hin Hy) as H.
    split; [now apply Hmin | now apply Hmax].
Qed.

(** X10: when the price bounds are computed, the lower one is not above the
    upper one, and every price of the table is less than one unit outside
    them: above the lower bound minus one, below the upper bound plus one.
    A price that is not negative is never below the lower bound.  (It can
    be above the upper bound, by a fraction.) *)
Theorem price_bounds_enclose (df : DataFrame) (lo hi : Z) :
  price_bounds df = Ok (lo, hi) ->
  lo <= hi /\
  forall i row p,
    In (i, row) df -> Price row = Some p ->
    (inject_Z lo - 1 < p)%Q /\ (p < inject_Z hi + 1)%Q /\
    ((0 <= p)%Q -> (inject_Z lo <= p)%Q).
Proof.
  intros Hb.
  assert (Hne : dropna (col Price df) <> []).
  { intros E. rewrite (proj1 (price_bounds_outcome df) E) in Hb. discriminate. }
  destruct (min_Q_spec _ Hne) as [m1 [E1 [Hin1 [_ Hmin]]]].
  destruct (max_Q_spec _ Hne) as [m2 [E2 [Hin2 [_ Hmax]]]].
  unfold price_bounds in Hb. rewrite E1, E2 in Hb. simpl in Hb.
  injection Hb as <- <-. split.
  - apply trunc_mono. now apply Hmin.
  - intros i row p Hin Hp. pose proof (in_col Price df i row p Hin Hp) as H.
    split; [|split].
    + eapply Qlt_le_trans; [apply trunc_lower | now apply Hmin].
    + eapply Qle_lt_trans; [apply Hmax, H | apply trunc_upper].
    + intros H0.
      apply Qle_trans with (inject_Z (trunc p)).
      * rewrite <- Zle_Qle. apply trunc_mono. now apply Hmin.
      * now apply trunc_le_nonneg.
Qed.

(** ** The count as displayed *)

Lemma digits_no_comma (d : Decimal.uint) :
  Forall (fun c => c <> ","%char)
         (list_ascii_of_string (DecimalString.NilEmpty.string_of_uint d)).
Proof.
  induction d; simpl; constructor; try discriminate; assumption.
Qed.

Lemma by_threes (P : list ascii -> Prop) :
  P [] -> (forall a, P [a]) -> (forall a b, P [a; b]) ->
  (forall a b c, P [a; b; c]) ->
  (forall a b c d rest, P (d :: rest) -> P (a :: b :: c :: d :: rest)) ->
  forall l, P l.
Proof.
  intros H0 H1 H2 H3 Hstep l.
  assert (H : P l /\ (forall a, P (a :: l)) /\ (forall a b, P (a :: b :: l))).
  { induction l as [|d rest [IH0 [IH1 IH2]]]; [auto|].
    split; [apply IH1|]. split; [intros a; apply IH2|].
    intros a b. destruct rest as [|e rest]; [apply H3|].
    apply Hstep. exact IH0. }
  apply H.
Qed.

Lemma group3_remove_commas (l : list ascii) :
  Forall (fun c => c <> ","%char) l ->
  List.filter (fun c => negb (Ascii.eqb c ","%char)) (group3 l) = l.
Proof.
  assert (Hkeep : forall c : ascii, c <> ","%char ->
                                    negb (Ascii.eqb c ","%char) = true).
  { intros c Hc. apply negb_true_iff. now apply Ascii.eqb_neq. }
  induction l using by_threes; intros Hall;
    repeat match goal with
           | H : Forall _ (_ :: _) |- _ => inversion H; clear H; subst
           end;
    cbn [group3 List.filter]; rewrite ?Hkeep by assumption; try reflexivity.
  cbn [Ascii.eqb Bool.eqb negb andb].
  change (a :: b :: c :: List.filter (fun c0 => negb (Ascii.eqb c0 ","%char))
            (group3 (d :: l)) = a :: b :: c :: d :: l).
  rewrite IHl; [reflexivity|]. now constructor.
Qed.

Lemma group3_commas (l : list ascii) :
  Forall (fun c => c <> ","%char) l ->
  last (group3 l) "0"%char <> ","%char /\
  forall i, (i < List.length (group3 l))%nat ->
            (nth i (group3 l) "0"%char = ","%char <-> (i mod 4 = 3)%nat).
Proof.
  induction l using by_threes; intros Hall;
    repeat match goal with
           | H : Forall _ (_ :: _) |- _ => inversion H; clear H; subst
           end.
  - simpl. split; [discriminate | intros i Hi; lia].
  - simpl. split; [assumption|]. intros [|i] Hi; [|lia].
    simpl. split; [contradiction | discriminate].
  - simpl. split; [assumption|]. intros [|[|i]] Hi; try lia;
      simpl; (split; [contradiction | discriminate]).
  - simpl. split; [assumption|]. intros [|[|[|i]]] Hi; try lia;
      simpl; (split; [contradiction | discriminate]).
  - destruct IHl as [IHlast IHnth]; [now constructor|].
    change (group3 (a :: b :: c :: d :: l))
      with (a :: b :: c :: ","%char :: group3 (d :: l)).
    split.
    + assert (Hne : group3 (d :: l) <> []).
      { destruct l as [|e [|f [|g l]]]; discriminate. }
      destruct (group3 (d :: l)) as [|x g] eqn:E; [congruence|].
      exact IHlast.
    + intros [|[|[|[|i]]]] Hi;
        try (simpl; split; [contradiction | discriminate]).
      * simpl. split; reflexivity.
      * cbn [nth]. cbn [List.length] in Hi.
        rewrite IHnth by lia.
        replace (S (S (S (S i)))) with (i + 1 * 4)%nat by lia.
        rewrite Nat.Div0.mod_add. reflexivity.
Qed.

Lemma hd_rev_last (l : list ascii) (d : ascii) : hd d (rev l) = last l d.
Proof.
  induction l as [|x l IH]; [reflexivity|].
  simpl rev. destruct l as [|y l]; [reflexivity|].
  change (last (x :: y :: l) d) with (last (y :: l) d). rewrite <- IH.
  simpl rev. destruct (rev l ++ [y]) eqn:E; [|reflexivity].
  destruct (rev l); discriminate.
Qed.

(** X11: line 88 shows the count with commas: taking the commas out and reading
    the digits gives the count back; the commas stand exactly at every
    fourth place counted from the right, and never in front. *)
Theorem count_display_round_trip (n : nat) :
  int_of_str (remove_commas (format_thousands n)) = Some n /\
  hd "0"%char (list_ascii_of_string (format_thousands n)) <> ","%char /\
  forall i,
    (i < List.length (list_ascii_of_string (format_thousands n)))%nat ->
    (nth i (rev (list_ascii_of_string (format_thousands n))) "0"%char = ","%char
     <-> (i mod 4 = 3)%nat).
Proof.
  unfold format_thousands, remove_commas, int_of_str, str_of_nat.
  rewrite !list_ascii_of_string_of_list_ascii.
  set (ds := list_ascii_of_string
               (DecimalString.NilEmpty.string_of_uint (Nat.to_uint n))).
  assert (Hds : Forall (fun c => c <> ","%char) (rev ds)).
  { apply Forall_rev. apply digits_no_comma. }
  destruct (group3_commas (rev ds) Hds) as [Hlast Hnth].
  split; [|split].
  - rewrite filter_rev, group3_remove_commas, rev_involutive by exact Hds.
    unfold ds. rewrite string_of_list_ascii_of_string.
    rewrite DecimalString.NilEmpty.usu. simpl.
    f_equal. apply DecimalNat.Unsigned.of_to.
  - rewrite hd_rev_last. exact Hlast.
  - intros i Hi. rewrite rev_involutive. apply Hnth.
    now rewrite length_rev in Hi.
Qed.

(** ** Instances of the further properties *)

Lemma domains_ignore_row_order_witness :
  Permutation sample_csv swapped_csv /\
  brands (read_csv sample_csv) = brands (read_csv swapped_csv) /\
  bike_types (read_csv sample_csv) = bike_types (read_csv swapped_csv).
Proof.
  assert (H : Permutation sample_csv swapped_csv) by apply perm_swap.
  split; [exact H|].
  apply (domains_ignore_row_order sample_csv swapped_csv H).
Defined.

Lemma year_bounds_enclose_witness :
  year_bounds sample_table = Ok (2012, 2018) /\
  2012 <= 2018 /\
  forall i row y,
    In (i, row) sample_table -> Year row = Some y -> 2012 <= y /\ y <= 2018.
Proof.
  split; [reflexivity|].
  apply (year_bounds_enclose sample_table 2012 2018). reflexivity.
Defined.

Lemma price_bounds_enclose_witness :
  price_bounds half_rupee_table = Ok (150000, 150000) /\
  150000 <= 150000 /\
  forall i row p,
    In (i, row) half_rupee_table -> Price row = Some p ->
    (inject_Z 150000 - 1 < p)%Q /\ (p < inject_Z 150000 + 1)%Q /\
    ((0 <= p)%Q -> (inject_Z 150000 <= p)%Q).
Proof.
  split; [reflexivity|].
  apply (price_bounds_enclose half_rupee_table 150000 150000). reflexivity.
Defined.
